(** * aEi.ai Python client: request construction layer

    A shallow embedding of [src/api/aei_api.py].  Every operation of the
    client builds a URL, a header dictionary and a body from its arguments
    and ends in a tail call of [requests.post], [get], [put] or [delete].
    The model evaluates an operation to that transport call (or to the
    Python exception raised before it is reached); the response belongs to
    the remote service and is not modelled. *)

From Stdlib Require Import NArith Lia.
From Stdlib Require Import Strings.Byte Ascii String.
From stdpp Require Import base option list strings gmap.

Local Open Scope N_scope.
Local Open Scope nat_scope.

(** ** Python values and exceptions *)

(** The Python values that reach the client as arguments or as entries of a
    decoded JSON status.  A [str] is a sequence of code points; [PStr] holds
    those below 256, so that the characters [encode("ascii")] rejects
    (128 and above) are present. *)
Inductive pyval : Type :=
  | PNone
  | PBool (b : bool)
  | PInt (z : Z)
  | PStr (s : string).

Global Instance pyval_eq_dec : EqDecision pyval.
Proof. solve_decision. Defined.

(** The exceptions the module can raise; [KeyError] carries the key. *)
Inductive exn : Type :=
  | TypeError
  | KeyError (key : string)
  | UnicodeEncodeError
  | UnicodeDecodeError.

Global Instance exn_eq_dec : EqDecision exn.
Proof. solve_decision. Defined.

(** Result of evaluating a Python expression: a value or a raised
    exception. *)
Inductive outcome (A : Type) : Type :=
  | Return (a : A)
  | Raise (e : exn).
Global Arguments Return {A} a.
Global Arguments Raise {A} e.

Global Instance outcome_ret : MRet outcome := @Return.
Global Instance outcome_bind : MBind outcome := λ A B f m,
  match m with
  | Return a => f a
  | Raise e => Raise e
  end.
Global Instance outcome_throw : MThrow exn outcome := @Raise.

(** [s + v] with a [str] on the left: concatenation when [v] is a [str],
    [TypeError] otherwise. *)
Definition str_add (s : string) (v : pyval) : outcome string :=
  match v with
  | PStr t => Return (s +:+ t)
  | _ => Raise TypeError
  end.

(** A dictionary whose iteration order is observed ([params.items()]):
    its items in insertion order. *)
Abbreviation pydict := (list (string * pyval)).

(** ** Module constants *)

Definition AEI_AI_URL : string := "https://aei.ai".
Definition API_VERSION : string := "v1".
Definition API_URL : string := AEI_AI_URL +:+ "/api/" +:+ API_VERSION.

(** ** Helpers *)

(** [auth_headers]: the single-entry header dictionary. *)
Definition auth_headers (access_token : pyval) : outcome (gmap string pyval) :=
  v ← str_add "Bearer " access_token;
  mret {[ "Authorization" := PStr v ]}.

(** [out[:-1]]: all characters but the last (the empty string stays
    empty). *)
Definition drop_last (out : string) : string :=
  String.substring 0 (String.length out - 1) out.

(** The loop of [params_2_string], over the items still to visit. *)
Fixpoint params_loop (items : pydict) (out : string) : outcome string :=
  match items with
  | [] => Return out
  | (k, v) :: rest =>
      out1 ← str_add (out +:+ k +:+ "=") v;
      params_loop rest (out1 +:+ "&")
  end.

(** [params_2_string]; [None] is Python's [None]. *)
Definition params_2_string (params : option pydict) : outcome string :=
  match params with
  | None => Return ""
  | Some items =>
      if bool_decide (length items = 0) then Return ""
      else out ← params_loop items "?"; mret (drop_last out)
  end.

(** The specification's wording of the query string: the [key=value] pairs
    joined by [&]. *)
Fixpoint join (sep : string) (l : list string) : string :=
  match l with
  | [] => ""
  | [x] => x
  | x :: rest => x +:+ sep +:+ join sep rest
  end.

Definition key_value (kv : string * string) : string :=
  kv.1 +:+ "=" +:+ kv.2.

Definition str_items (l : list (string * string)) : pydict :=
  map (λ kv, (kv.1, PStr kv.2)) l.

(** ** The status helper *)

(** [str(v)] as [print] renders it.  Decimal digits of a positive number,
    most significant first. *)
Fixpoint pos_digits (fuel : nat) (n : N) (acc : string) : string :=
  match fuel with
  | O => acc
  | S fuel' =>
      let acc' := String (ascii_of_N (48 + n mod 10)) acc in
      if (n / 10 =? 0)%N then acc' else pos_digits fuel' (n / 10)%N acc'
  end.

Definition N_to_string (n : N) : string :=
  pos_digits (S (N.to_nat (N.log2 n))) n "".

Definition py_str (v : pyval) : string :=
  match v with
  | PNone => "None"
  | PBool true => "True"
  | PBool false => "False"
  | PInt z => if (z <? 0)%Z then "-" +:+ N_to_string (Z.abs_N z)
              else N_to_string (Z.abs_N z)
  | PStr s => s
  end.

(** [v != n] for an integer literal [n]: a [bool] compares as 0 or 1, a
    [str] or [None] is never equal to a number. *)
Definition py_ne_int (v : pyval) (n : Z) : bool :=
  match v with
  | PInt z => negb (z =? n)%Z
  | PBool b => negb ((if b then 1 else 0) =? n)%Z
  | _ => true
  end.

(** Code that prints: the lines written to standard output so far are
    threaded through, and kept when an exception is raised. *)
Definition io (A : Type) : Type := list string → outcome A * list string.

Global Instance io_ret : MRet io := λ A a out, (Return a, out).
Global Instance io_bind : MBind io := λ A B f m out,
  match m out with
  | (Return a, out') => f a out'
  | (Raise e, out') => (Raise e, out')
  end.
Global Instance io_throw : MThrow exn io := λ A e out, (Raise e, out).

(** [print(v)]. *)
Definition print (v : pyval) : io unit :=
  λ out, (Return tt, out ++ [py_str v]).

(** [d[key]] on a dictionary. *)
Definition getitem (d : gmap string pyval) (key : string) : io pyval :=
  match d !! key with
  | Some v => mret v
  | None => mthrow (KeyError key)
  end.

(** [is_success]. *)
Definition is_success (status : gmap string pyval) : io bool :=
  code ← getitem status "code";
  if py_ne_int code 200 then
    e ← getitem status "error";
    _ ← print e;
    h ← getitem status "help";
    _ ← print h;
    mret false
  else mret true.

(** ** Text and bytes *)

(** [v + s] with a [str] literal on the right. *)
Definition add_str (v : pyval) (s : string) : outcome string :=
  match v with
  | PStr t => Return (t +:+ s)
  | _ => Raise TypeError
  end.

Definition is_ascii_char (c : ascii) : bool := (N_of_ascii c <? 128)%N.
Definition is_ascii_byte (b : byte) : bool := (Byte.to_N b <? 128)%N.

Definition is_ascii (s : string) : bool :=
  forallb is_ascii_char (list_ascii_of_string s).

(** [s.encode("ascii")]. *)
Definition encode_ascii (s : string) : outcome (list byte) :=
  if is_ascii s then Return (String.list_byte_of_string s)
  else Raise UnicodeEncodeError.

(** [bs.decode("ascii")]. *)
Definition decode_ascii (bs : list byte) : outcome string :=
  if forallb is_ascii_byte bs then Return (String.string_of_list_byte bs)
  else Raise UnicodeDecodeError.

(** *** Base64 (standard alphabet, with padding)

    [base64.b64encode] belongs to Python's standard library; it is modelled
    here as RFC 4648 defines it: every three bytes give four characters of
    the alphabet, a final group of one or two bytes is padded with [=]. *)
Module Base64.

Definition alphabet : list byte :=
  String.list_byte_of_string
    "ABCDEFGHIJKLMNOPQRSTUVWXYZabcdefghijklmnopqrstuvwxyz0123456789+/".

Definition pad : byte := "="%byte.

Definition char (n : N) : byte := nth (N.to_nat n) alphabet pad.

Definition byte_of_N (n : N) : byte :=
  match Byte.of_N (N.land n 255) with
  | Some b => b
  | None => "000"%byte
  end.

Definition sextet1 (a : N) : N := N.shiftr a 2.
Definition sextet2 (a b : N) : N :=
  N.lor (N.shiftl (N.land a 3) 4) (N.shiftr b 4).
Definition sextet3 (b c : N) : N :=
  N.lor (N.shiftl (N.land b 15) 2) (N.shiftr c 6).
Definition sextet4 (c : N) : N := N.land c 63.

Fixpoint b64encode (bs : list byte) : list byte :=
  match bs with
  | [] => []
  | [x] =>
      let a := Byte.to_N x in
      [char (sextet1 a); char (sextet2 a 0); pad; pad]
  | [x; y] =>
      let a := Byte.to_N x in
      let b := Byte.to_N y in
      [char (sextet1 a); char (sextet2 a b); char (sextet3 b 0); pad]
  | x :: y :: z :: rest =>
      let a := Byte.to_N x in
      let b := Byte.to_N y in
      let c := Byte.to_N z in
      char (sextet1 a) :: char (sextet2 a b) :: char (sextet3 b c)
        :: char (sextet4 c) :: b64encode rest
  end.

(** Decoding, the inverse direction of RFC 4648: position of a character
    in the alphabet. *)
Fixpoint index_from (i : N) (l : list byte) (c : byte) : option N :=
  match l with
  | [] => None
  | x :: l' => if Byte.eqb x c then Some i else index_from (N.succ i) l' c
  end.

Definition index (c : byte) : option N := index_from 0 alphabet c.

Definition octet1 (s1 s2 : N) : byte :=
  byte_of_N (N.lor (N.shiftl s1 2) (N.shiftr s2 4)).
Definition octet2 (s2 s3 : N) : byte :=
  byte_of_N (N.lor (N.shiftl s2 4) (N.shiftr s3 2)).
Definition octet3 (s3 s4 : N) : byte :=
  byte_of_N (N.lor (N.shiftl s3 6) s4).

Fixpoint b64decode (cs : list byte) : option (list byte) :=
  match cs with
  | [] => Some []
  | c1 :: c2 :: c3 :: c4 :: rest =>
      s1 ← index c1;
      s2 ← index c2;
      if Byte.eqb c4 pad && bool_decide (rest = []) then
        if Byte.eqb c3 pad then Some [octet1 s1 s2]
        else s3 ← index c3; Some [octet1 s1 s2; octet2 s2 s3]
      else
        s3 ← index c3;
        s4 ← index c4;
        tl ← b64decode rest;
        Some (octet1 s1 s2 :: octet2 s2 s3 :: octet3 s3 s4 :: tl)
  | _ => None
  end.

End Base64.

(** [s.partition(sep)] without the separator: the text before the first
    [sep] and the text after it. *)
Fixpoint split_first (sep : ascii) (s : string) : string * string :=
  match s with
  | EmptyString => (EmptyString, EmptyString)
  | String c s' =>
      if Ascii.eqb c sep then (EmptyString, s')
      else let '(before, after) := split_first sep s' in
           (String c before, after)
  end.

(** [s] without the leading [p], when it starts with it. *)
Fixpoint strip_prefix (p s : string) : option string :=
  match p, s with
  | EmptyString, _ => Some s
  | String a p', String b s' =>
      if Ascii.eqb a b then strip_prefix p' s' else None
  | String _ _, EmptyString => None
  end.

(** Whether character [c] occurs in [s]. *)
Definition contains_char (c : ascii) (s : string) : bool :=
  existsb (Ascii.eqb c) (list_ascii_of_string s).

(** Reading the credentials back from a Basic header value, as the
    specification words it: base64-decode the credential part, then split
    on the first colon. *)
Definition basic_credentials (value : string) : option (string * string) :=
  cred ← strip_prefix "Basic " value;
  bs ← Base64.b64decode (String.list_byte_of_string cred);
  match decode_ascii bs with
  | Return s => Some (split_first ":" s)
  | Raise _ => None
  end.

(** ** Transport calls *)

Inductive http_method : Type := POST | GET | PUT | DELETE.

Global Instance http_method_eq_dec : EqDecision http_method.
Proof. solve_decision. Defined.

(** The [data] argument handed to [requests]: a single Python value (raw
    text, or [None] when the argument is left out), a dictionary, or a list
    of [(name, value)] tuples. *)
Inductive payload : Type :=
  | Raw (v : pyval)
  | Dict (d : pydict)
  | Pairs (l : list (string * pyval)).

(** One call of [requests.post], [get], [put] or [delete]; [headers] is
    [None] when the keyword is not passed. *)
Record request : Type := Request {
  method : http_method;
  url : string;
  data : payload;
  headers : option (gmap string pyval)
}.

Module requests.
Definition post (url : string) (data : payload)
    (headers : option (gmap string pyval)) : outcome request :=
  Return (Request POST url data headers).
Definition get (url : string) (headers : option (gmap string pyval))
    : outcome request :=
  Return (Request GET url (Raw PNone) headers).
Definition put (url : string) (data : payload)
    (headers : option (gmap string pyval)) : outcome request :=
  Return (Request PUT url data headers).
Definition delete (url : string) (headers : option (gmap string pyval))
    : outcome request :=
  Return (Request DELETE url (Raw PNone) headers).
End requests.

(** The value of a header of a request, if it is sent. *)
Definition header (name : string) (r : request) : option pyval :=
  hs ← headers r; hs !! name.

(** [prefix p s]: [s] starts with [p]. *)
Abbreviation starts_with p s := (String.prefix p s).

Section Operations.

(** [json.dumps] on a dictionary of attributes: standard-library code,
    left abstract. *)
Variable json_dumps : pydict → string.

(** [json.dumps(d) if d else None]: [None] and the empty dictionary are
    both false. *)
Definition json_body (d : option pydict) : payload :=
  match d with
  | Some (kv :: items) => Raw (PStr (json_dumps (kv :: items)))
  | _ => Raw PNone
  end.

(** [[("user_id", user_id) for user_id in user_ids]]. *)
Definition user_id_pairs (user_ids : list pyval) : list (string * pyval) :=
  map (λ user_id, ("user_id", user_id)) user_ids.

Definition register (username email password agreed : pyval)
    : outcome request :=
  let url := AEI_AI_URL +:+ "/register" in
  let headers : gmap string pyval :=
    <["agreed" := agreed]> (<["password" := password]>
      (<["email" := email]> {["username" := username]})) in
  requests.post url (Raw PNone) (Some headers).

Definition login (username password : pyval) : outcome request :=
  let url := AEI_AI_URL +:+ "/oauth/token" in
  let params := [("grant_type", PStr "client_credentials")] in
  name ← add_str username ":";
  credentials ← str_add name password;
  credentials ← encode_ascii credentials;
  encoded ← decode_ascii (Base64.b64encode credentials);
  let headers : gmap string pyval :=
    <["Content-Type" := PStr "application/x-www-form-urlencoded"]>
      {["Authorization" := PStr ("Basic " +:+ encoded)]} in
  requests.post url (Dict params) (Some headers).

Definition create_new_user (access_token : pyval)
    (attributes : option pydict) : outcome request :=
  let url := API_URL +:+ "/users" in
  headers ← auth_headers access_token;
  let body := json_body attributes in
  requests.post url body (Some headers).

Definition create_new_interaction (user_ids : list pyval)
    (access_token : pyval) : outcome request :=
  let url := API_URL +:+ "/interactions" in
  headers ← auth_headers access_token;
  let params := user_id_pairs user_ids in
  requests.post url (Pairs params) (Some headers).

Definition get_interaction (interaction_id access_token : pyval)
    : outcome request :=
  url ← str_add (API_URL +:+ "/interactions/") interaction_id;
  headers ← auth_headers access_token;
  requests.get url (Some headers).

Definition get_interaction_list (access_token : pyval) : outcome request :=
  let url := API_URL +:+ "/interactions" in
  headers ← auth_headers access_token;
  requests.get url (Some headers).

Definition add_users_to_interaction (interaction_id : pyval)
    (user_ids : list pyval) (access_token : pyval) : outcome request :=
  url ← str_add (API_URL +:+ "/interactions/") interaction_id;
  let url := url +:+ "/users" in
  headers ← auth_headers access_token;
  let params := user_id_pairs user_ids in
  requests.put url (Pairs params) (Some headers).

Definition new_text_input (user_id interaction_id text access_token : pyval)
    : outcome request :=
  let url := API_URL +:+ "/inputs/text" in
  headers ← auth_headers access_token;
  query ← params_2_string
    (Some [("user_id", user_id); ("interaction_id", interaction_id)]);
  let url := url +:+ query in
  requests.post url (Raw text) (Some headers).

Definition new_interaction_list_input (json_string access_token : pyval)
    : outcome request :=
  let url := API_URL +:+ "/inputs/interaction-list" in
  headers ← auth_headers access_token;
  requests.post url (Raw json_string) (Some headers).

Definition get_user (user_id access_token : pyval)
    : outcome request :=
  url ← str_add (API_URL +:+ "/users/") user_id;
  headers ← auth_headers access_token;
  requests.get url (Some headers).

Definition get_user_emotion (user_id access_token : pyval)
    : outcome request :=
  url ← str_add (API_URL +:+ "/users/") user_id;
  let url := url +:+ "/emotion" in
  headers ← auth_headers access_token;
  requests.get url (Some headers).

Definition get_user_mood (user_id access_token : pyval)
    : outcome request :=
  url ← str_add (API_URL +:+ "/users/") user_id;
  let url := url +:+ "/mood" in
  headers ← auth_headers access_token;
  requests.get url (Some headers).

Definition get_user_personality (user_id access_token : pyval)
    : outcome request :=
  url ← str_add (API_URL +:+ "/users/") user_id;
  let url := url +:+ "/personality" in
  headers ← auth_headers access_token;
  requests.get url (Some headers).

Definition get_user_satisfaction (user_id access_token : pyval)
    : outcome request :=
  url ← str_add (API_URL +:+ "/users/") user_id;
  let url := url +:+ "/satisfaction" in
  headers ← auth_headers access_token;
  requests.get url (Some headers).

Definition get_user_social_perception (user_id access_token : pyval)
    : outcome request :=
  url ← str_add (API_URL +:+ "/users/") user_id;
  let url := url +:+ "/social-perception" in
  headers ← auth_headers access_token;
  requests.get url (Some headers).

Definition get_user_list (access_token : pyval) : outcome request :=
  let url := API_URL +:+ "/users/" in
  headers ← auth_headers access_token;
  requests.get url (Some headers).

Definition get_used_free_queries (access_token : pyval) : outcome request :=
  let url := API_URL +:+ "/metrics/queries/used" in
  headers ← auth_headers access_token;
  requests.get url (Some headers).

Definition get_used_paid_queries (access_token : pyval) : outcome request :=
  let url := API_URL +:+ "/metrics/queries" in
  headers ← auth_headers access_token;
  requests.get url (Some headers).

Definition get_payment_sources (access_token : pyval) : outcome request :=
  let url := API_URL +:+ "/sources" in
  headers ← auth_headers access_token;
  requests.get url (Some headers).

Definition get_payment_source (source_id access_token : pyval)
    : outcome request :=
  url ← str_add (API_URL +:+ "/sources/") source_id;
  headers ← auth_headers access_token;
  requests.get url (Some headers).

Definition add_payment_source (source_id access_token : pyval)
    : outcome request :=
  url ← str_add (API_URL +:+ "/sources/") source_id;
  headers ← auth_headers access_token;
  requests.post url (Raw PNone) (Some headers).

Definition get_subscription (access_token : pyval) : outcome request :=
  let url := API_URL +:+ "/subscriptions" in
  headers ← auth_headers access_token;
  requests.get url (Some headers).

Definition update_subscription (subscription_type access_token : pyval)
    : outcome request :=
  let url := API_URL +:+ "/subscriptions" in
  headers ← auth_headers access_token;
  let params := [("subscription_type", subscription_type)] in
  requests.put url (Dict params) (Some headers).

Definition delete_source (source_id access_token : pyval)
    : outcome request :=
  url ← str_add (API_URL +:+ "/sources/") source_id;
  headers ← auth_headers access_token;
  requests.delete url (Some headers).

Definition update_source (source_id : pyval)
    (update_params : option pydict) (access_token : pyval)
    : outcome request :=
  url ← str_add (API_URL +:+ "/sources/") source_id;
  headers ← auth_headers access_token;
  let body := json_body update_params in
  requests.put url body (Some headers).

Definition change_password (password access_token : pyval)
    : outcome request :=
  let url := API_URL +:+ "/clients/password" in
  headers ← auth_headers access_token;
  let headers := <["password" := password]> headers in
  requests.put url (Raw PNone) (Some headers).

Definition reset_password (email : pyval) : outcome request :=
  let url := AEI_AI_URL +:+ "/reset-password" in
  let params := [("email", email)] in
  requests.post url (Dict params) None.

Definition update_password
    (username password_reset_token new_password : pyval)
    : outcome request :=
  let url := AEI_AI_URL +:+ "/update-password" in
  let headers : gmap string pyval :=
    <["password" := new_password]> (<["token" := password_reset_token]>
      {["username" := username]}) in
  requests.put url (Raw PNone) (Some headers).

End Operations.

(** ** The operation catalog *)

(** One invocation of a public operation of the module, with its
    arguments. *)
Inductive call : Type :=
  | Register (username email password agreed : pyval)
  | Login (username password : pyval)
  | CreateNewUser (access_token : pyval) (attributes : option pydict)
  | CreateNewInteraction (user_ids : list pyval) (access_token : pyval)
  | GetInteraction (interaction_id access_token : pyval)
  | GetInteractionList (access_token : pyval)
  | AddUsersToInteraction (interaction_id : pyval) (user_ids : list pyval)
      (access_token : pyval)
  | NewTextInput (user_id interaction_id text access_token : pyval)
  | NewInteractionListInput (json_string access_token : pyval)
  | GetUser (user_id access_token : pyval)
  | GetUserEmotion (user_id access_token : pyval)
  | GetUserMood (user_id access_token : pyval)
  | GetUserPersonality (user_id access_token : pyval)
  | GetUserSatisfaction (user_id access_token : pyval)
  | GetUserSocialPerception (user_id access_token : pyval)
  | GetUserList (access_token : pyval)
  | GetUsedFreeQueries (access_token : pyval)
  | GetUsedPaidQueries (access_token : pyval)
  | GetPaymentSources (access_token : pyval)
  | GetPaymentSource (source_id access_token : pyval)
  | AddPaymentSource (source_id access_token : pyval)
  | GetSubscription (access_token : pyval)
  | UpdateSubscription (subscription_type access_token : pyval)
  | DeleteSource (source_id access_token : pyval)
  | UpdateSource (source_id : pyval) (update_params : option pydict)
      (access_token : pyval)
  | ChangePassword (password access_token : pyval)
  | ResetPassword (email : pyval)
  | UpdatePassword (username password_reset_token new_password : pyval).

Section Catalog.

Variable json_dumps : pydict → string.

Definition perform (c : call) : outcome request :=
  match c with
  | Register u e p a => register u e p a
  | Login u p => login u p
  | CreateNewUser t attrs => create_new_user json_dumps t attrs
  | CreateNewInteraction ids t => create_new_interaction ids t
  | GetInteraction i t => get_interaction i t
  | GetInteractionList t => get_interaction_list t
  | AddUsersToInteraction i ids t => add_users_to_interaction i ids t
  | NewTextInput u i text t => new_text_input u i text t
  | NewInteractionListInput js t => new_interaction_list_input js t
  | GetUser u t => get_user u t
  | GetUserEmotion u t => get_user_emotion u t
  | GetUserMood u t => get_user_mood u t
  | GetUserPersonality u t => get_user_personality u t
  | GetUserSatisfaction u t => get_user_satisfaction u t
  | GetUserSocialPerception u t => get_user_social_perception u t
  | GetUserList t => get_user_list t
  | GetUsedFreeQueries t => get_used_free_queries t
  | GetUsedPaidQueries t => get_used_paid_queries t
  | GetPaymentSources t => get_payment_sources t
  | GetPaymentSource s t => get_payment_source s t
  | AddPaymentSource s t => add_payment_source s t
  | GetSubscription t => get_subscription t
  | UpdateSubscription ty t => update_subscription ty t
  | DeleteSource s t => delete_source s t
  | UpdateSource s ps t => update_source json_dumps s ps t
  | ChangePassword p t => change_password p t
  | ResetPassword e => reset_password e
  | UpdatePassword u tok p => update_password u tok p
  end.

End Catalog.

(** The [access_token] argument of a call, for the operations that have
    one. *)
Definition access_token_of (c : call) : option pyval :=
  match c with
  | Register _ _ _ _ | Login _ _ | ResetPassword _ | UpdatePassword _ _ _ =>
      None
  | CreateNewUser t _ | CreateNewInteraction _ t | GetInteraction _ t
  | GetInteractionList t | AddUsersToInteraction _ _ t
  | NewTextInput _ _ _ t | NewInteractionListInput _ t | GetUser _ t
  | GetUserEmotion _ t | GetUserMood _ t | GetUserPersonality _ t
  | GetUserSatisfaction _ t | GetUserSocialPerception _ t | GetUserList t
  | GetUsedFreeQueries t | GetUsedPaidQueries t | GetPaymentSources t
  | GetPaymentSource _ t | AddPaymentSource _ t | GetSubscription t
  | UpdateSubscription _ t | DeleteSource _ t | UpdateSource _ _ t
  | ChangePassword _ t => Some t
  end.

(** The account operations: registration, login, password reset and
    update. *)
Definition account_op (c : call) : bool :=
  match c with
  | Register _ _ _ _ | Login _ _ | ResetPassword _ | UpdatePassword _ _ _ =>
      true
  | _ => false
  end.

(** The path each account operation appends to the host. *)
Definition account_path (c : call) : string :=
  match c with
  | Register _ _ _ _ => "/register"
  | Login _ _ => "/oauth/token"
  | ResetPassword _ => "/reset-password"
  | UpdatePassword _ _ _ => "/update-password"
  | _ => ""
  end.

Definition is_str (v : pyval) : bool :=
  match v with PStr _ => true | _ => false end.

(** The arguments of a call that the operation concatenates into its URL
    or its Authorization header: they have to be [str]. *)
Definition text_arguments (c : call) : list pyval :=
  match c with
  | Register _ _ _ _ | ResetPassword _ | UpdatePassword _ _ _ => []
  | Login u p => [u; p]
  | CreateNewUser t _ | CreateNewInteraction _ t | GetInteractionList t
  | NewInteractionListInput _ t | GetUserList t | GetUsedFreeQueries t
  | GetUsedPaidQueries t | GetPaymentSources t | GetSubscription t
  | UpdateSubscription _ t | ChangePassword _ t => [t]
  | GetInteraction i t | AddUsersToInteraction i _ t => [i; t]
  | NewTextInput u i _ t => [u; i; t]
  | GetUser u t | GetUserEmotion u t | GetUserMood u t
  | GetUserPersonality u t | GetUserSatisfaction u t
  | GetUserSocialPerception u t => [u; t]
  | GetPaymentSource s t | AddPaymentSource s t | DeleteSource s t
  | UpdateSource s _ t => [s; t]
  end.

Definition well_typed (c : call) : bool := forallb is_str (text_arguments c).

(** The specification's wording of the login header value: [Basic]
    followed by the base64 text of [username:password]. *)
Definition base64_text (s : string) : string :=
  String.string_of_list_byte
    (Base64.b64encode (String.list_byte_of_string s)).

Definition basic_header (username password : string) : string :=
  "Basic " +:+ base64_text (username +:+ ":" +:+ password).

Definition login_request (value : string) : request :=
  Request POST (AEI_AI_URL +:+ "/oauth/token")
    (Dict [("grant_type", PStr "client_credentials")])
    (Some (<["Content-Type" := PStr "application/x-www-form-urlencoded"]>
             {["Authorization" := PStr value]})).

(** The numbers below [k], for exhaustive checks over bytes and
    sextets. *)
Definition N_below (k : nat) : list N := map N.of_nat (seq 0 k).

(** Checks that are settled by evaluation: every sextet is a position of
    the alphabet, and the octets the decoder rebuilds from the sextets of
    a group are the bytes the group was made of. *)
Definition alphabet_check (n : N) : bool :=
  match Base64.index (Base64.char n) with
  | Some m => (m =? n)%N && negb (Byte.eqb (Base64.char n) Base64.pad)
  | None => false
  end.

Definition sextet_check (a b : N) : bool :=
  (Base64.sextet1 a <? 64)%N && (Base64.sextet2 a b <? 64)%N
  && (Base64.sextet3 a b <? 64)%N && (Base64.sextet4 a <? 64)%N
  && (N.shiftr a 6 <? 4)%N
  && (N.land (N.lor (N.shiftl (Base64.sextet1 a) 2)
                (N.shiftr (Base64.sextet2 a b) 4)) 255 =? a)%N
  && (N.land (N.lor (N.shiftl (Base64.sextet3 a b) 6) (Base64.sextet4 b))
        255 =? b)%N.

Definition octet2_check (a b k : N) : bool :=
  (N.land (N.lor (N.shiftl (Base64.sextet2 a b) 4)
             (N.shiftr (N.lor (N.shiftl (N.land b 15) 2) k) 2)) 255 =? b)%N.

(** The call [c] with its access token replaced by [t]; the account
    operations, which take none, are left as they are. *)
Definition with_token (t : pyval) (c : call) : call :=
  match c with
  | Register _ _ _ _ | Login _ _ | ResetPassword _ | UpdatePassword _ _ _ => c
  | CreateNewUser _ attrs => CreateNewUser t attrs
  | CreateNewInteraction ids _ => CreateNewInteraction ids t
  | GetInteraction i _ => GetInteraction i t
  | GetInteractionList _ => GetInteractionList t
  | AddUsersToInteraction i ids _ => AddUsersToInteraction i ids t
  | NewTextInput u i text _ => NewTextInput u i text t
  | NewInteractionListInput js _ => NewInteractionListInput js t
  | GetUser u _ => GetUser u t
  | GetUserEmotion u _ => GetUserEmotion u t
  | GetUserMood u _ => GetUserMood u t
  | GetUserPersonality u _ => GetUserPersonality u t
  | GetUserSatisfaction u _ => GetUserSatisfaction u t
  | GetUserSocialPerception u _ => GetUserSocialPerception u t
  | GetUserList _ => GetUserList t
  | GetUsedFreeQueries _ => GetUsedFreeQueries t
  | GetUsedPaidQueries _ => GetUsedPaidQueries t
  | GetPaymentSources _ => GetPaymentSources t
  | GetPaymentSource s _ => GetPaymentSource s t
  | AddPaymentSource s _ => AddPaymentSource s t
  | GetSubscription _ => GetSubscription t
  | UpdateSubscription ty _ => UpdateSubscription ty t
  | DeleteSource s _ => DeleteSource s t
  | UpdateSource s ps _ => UpdateSource s ps t
  | ChangePassword p _ => ChangePassword p t
  end.

(** Whether every value of a parameter map is a [str]. *)
Definition values_are_str (items : pydict) : bool :=
  forallb (λ kv, is_str kv.2) items.

(** * Properties *)

(** Concatenation with a literal on the left unfolds under [simpl]. *)
Local Arguments String.append !_ _ / : simpl nomatch.

(** ** Strings *)

Lemma append_assoc (a b c : string) : (a +:+ b) +:+ c = a +:+ (b +:+ c).
Proof. induction a as [|x a IH]; simpl; [done | by rewrite IH]. Qed.

Lemma append_empty_r (a : string) : a +:+ "" = a.
Proof. induction a as [|x a IH]; simpl; [done | by rewrite IH]. Qed.

Lemma length_append (a b : string) :
  String.length (a +:+ b) = String.length a + String.length b.
Proof. induction a as [|x a IH]; simpl; [done | by rewrite IH]. Qed.

Lemma substring_append (a b : string) :
  String.substring 0 (String.length a) (a +:+ b) = a.
Proof.
  induction a as [|x a IH]; simpl.
  - by destruct b.
  - by rewrite IH.
Qed.

(** Cutting the last character off a string that ends in one. *)
Lemma drop_last_append (a : string) (c : ascii) :
  drop_last (a +:+ String c "") = a.
Proof.
  unfold drop_last. rewrite length_append. simpl.
  replace (String.length a + 1 - 1) with (String.length a) by lia.
  apply substring_append.
Qed.

(** ** Query strings *)

(** The loop appends [key=value&] for every item, in order. *)
Lemma params_loop_str_items (l : list (string * string)) (out : string) :
  params_loop (str_items l) out
  = Return (out +:+ String.concat "" (map (λ kv, key_value kv +:+ "&") l)).
Proof.
  revert out. induction l as [|[k v] l IH]; intros out; simpl.
  - by rewrite append_empty_r.
  - rewrite IH. f_equal. unfold key_value. simpl.
    destruct l; simpl; by rewrite !append_assoc, ?append_empty_r.
Qed.

(** The items with a trailing [&] each are the joined items followed by
    one [&]. *)
Lemma concat_trailing_join (kv : string * string) (l : list (string * string)) :
  String.concat "" (map (λ kv, key_value kv +:+ "&") (kv :: l))
  = join "&" (map key_value (kv :: l)) +:+ "&".
Proof.
  revert kv. induction l as [|kv' l IH]; intros kv.
  - simpl. done.
  - change (map ?f (kv :: kv' :: l)) with (f kv :: map f (kv' :: l)).
    change (String.concat "" (?x :: map ?f (kv' :: l)))
      with (x +:+ "" +:+ String.concat "" (map f (kv' :: l))).
    rewrite IH. simpl. by rewrite !append_assoc.
Qed.

Lemma params_2_string_str_items (kv : string * string)
    (l : list (string * string)) :
  params_2_string (Some (str_items (kv :: l)))
  = Return ("?" +:+ join "&" (map key_value (kv :: l))).
Proof.
  unfold params_2_string.
  change (bool_decide (length (str_items (kv :: l)) = 0)) with false.
  cbv iota. rewrite params_loop_str_items, concat_trailing_join.
  change (?m ≫= ?f) with (f ("?" +:+ join "&" (map key_value (kv :: l)) +:+ "&")).
  cbv beta. rewrite <- append_assoc. by rewrite drop_last_append.
Qed.

(** C2. Query-string construction: the two-parameter example gives
    [?user_id=u1&interaction_id=i2]; every non-empty parameter map gives
    [?] followed by the [key=value] pairs joined by [&], with no trailing
    [&] and the values copied as they are (reserved characters included);
    an empty or absent map gives the empty string. *)
Theorem params_2_string_spec :
  params_2_string
    (Some [("user_id", PStr "u1"); ("interaction_id", PStr "i2")])
  = Return "?user_id=u1&interaction_id=i2"
  ∧ (∀ (kv : string * string) (l : list (string * string)),
       params_2_string (Some (str_items (kv :: l)))
       = Return ("?" +:+ join "&" (map key_value (kv :: l))))
  ∧ params_2_string (Some [("q", PStr "a b&c=d%/?")]) = Return "?q=a b&c=d%/?"
  ∧ params_2_string (Some []) = Return ""
  ∧ params_2_string None = Return "".
Proof.
  split; [reflexivity |].
  split; [apply params_2_string_str_items |].
  repeat split; reflexivity.
Qed.

(** ** The status helper *)

(** Only the integer 200 compares equal to 200. *)
Lemma py_ne_int_200 (code : pyval) :
  py_ne_int code 200 = false ↔ code = PInt 200.
Proof.
  destruct code as [|[]|z|s]; simpl; try (split; [discriminate | congruence]).
  rewrite negb_false_iff, Z.eqb_eq. split; congruence.
Qed.

Lemma py_ne_int_other (code : pyval) :
  code ≠ PInt 200 → py_ne_int code 200 = true.
Proof.
  intros Hne. destruct (py_ne_int code 200) eqn:E; [done |].
  by apply py_ne_int_200 in E.
Qed.

Lemma is_success_ok (status : gmap string pyval) (out : list string) :
  status !! "code" = Some (PInt 200) → is_success status out = (Return true, out).
Proof.
  intros Hc. unfold is_success, getitem, mbind, io_bind. by rewrite Hc.
Qed.

Lemma is_success_failed (status : gmap string pyval) (code e h : pyval)
    (out : list string) :
  status !! "code" = Some code → code ≠ PInt 200 →
  status !! "error" = Some e → status !! "help" = Some h →
  is_success status out = (Return false, out ++ [py_str e; py_str h]).
Proof.
  intros Hc Hne He Hh. apply py_ne_int_other in Hne.
  unfold is_success, getitem, print, mbind, io_bind, mret, io_ret.
  rewrite Hc. simpl. rewrite Hne, He. simpl. rewrite Hh. simpl.
  by rewrite <- app_assoc.
Qed.

(** C3. [is_success] returns true on a status whose code is 200 and prints
    nothing; on a status [{code, error, help}] with any other code it
    returns false after printing the error and the help text, in that
    order.  The 404 status of the specification is the example. *)
Theorem is_success_iff_code_200 :
  (∀ (status : gmap string pyval) (out : list string),
     status !! "code" = Some (PInt 200) →
     is_success status out = (Return true, out))
  ∧ (∀ (status : gmap string pyval) (code e h : pyval) (out : list string),
       status !! "code" = Some code →
       status !! "error" = Some e → status !! "help" = Some h →
       (code ≠ PInt 200 →
        is_success status out = (Return false, out ++ [py_str e; py_str h]))
       ∧ ((is_success status out).1 = Return true ↔ code = PInt 200))
  ∧ is_success {[ "code" := PInt 404; "error" := PStr "not found";
                  "help" := PStr "check id" ]} []
    = (Return false, ["not found"; "check id"]).
Proof.
  split; [apply is_success_ok |]. split; [| reflexivity].
  intros status code e h out Hc He Hh.
  split; [intros Hne; by eapply is_success_failed |].
  destruct (decide (code = PInt 200)) as [-> | Hne].
  - by rewrite is_success_ok.
  - rewrite (is_success_failed status code e h) by done. simpl.
    split; [discriminate | done].
Qed.

Lemma is_success_iff_code_200_witness :
  is_success {[ "code" := PInt 500; "error" := PStr "boom";
                "help" := PNone ]} ["earlier line"]
  = (Return false, ["earlier line"; "boom"; "None"]).
Proof.
  destruct is_success_iff_code_200 as (_ & Hfail & _).
  refine (proj1 (Hfail _ (PInt 500) (PStr "boom") PNone _ _ _ _) _);
    [reflexivity | reflexivity | reflexivity | discriminate].
Defined.

(** C10. On a status whose code differs from 200, [is_success] reads the
    [error] and [help] keys before it returns: an absent key raises
    [KeyError] instead of returning false, so a returned false means both
    keys were present. *)
Theorem is_success_failure_reads_diagnostics
    (status : gmap string pyval) (code : pyval) (out : list string) :
  status !! "code" = Some code → code ≠ PInt 200 →
  (status !! "error" = None →
   is_success status out = (Raise (KeyError "error"), out))
  ∧ (∀ e, status !! "error" = Some e → status !! "help" = None →
       is_success status out = (Raise (KeyError "help"), out ++ [py_str e]))
  ∧ ((is_success status out).1 = Return false →
     is_Some (status !! "error") ∧ is_Some (status !! "help")).
Proof.
  intros Hc Hne. apply py_ne_int_other in Hne.
  unfold is_success, getitem, print, mbind, io_bind, mret, io_ret, mthrow,
    io_throw.
  rewrite Hc. simpl. rewrite Hne.
  destruct (status !! "error") as [e|] eqn:He; simpl.
  - destruct (status !! "help") as [h|] eqn:Hh; simpl.
    + repeat split; eauto; discriminate.
    + repeat split; try discriminate. intros e' [= <-] _. done.
  - repeat split; discriminate.
Qed.

Lemma is_success_failure_reads_diagnostics_witness :
  is_success {[ "code" := PInt 404; "error" := PStr "not found" ]} []
  = (Raise (KeyError "help"), ["not found"]).
Proof.
  refine (proj1 (proj2 (is_success_failure_reads_diagnostics
    {[ "code" := PInt 404; "error" := PStr "not found" ]} (PInt 404) [] _ _))
    (PStr "not found") _ _); [reflexivity | discriminate | reflexivity
    | reflexivity].
Defined.

(** ** Bearer authentication *)

Lemma auth_headers_str (t : string) :
  auth_headers (PStr t)
  = Return {[ "Authorization" := PStr ("Bearer " +:+ t) ]}.
Proof. reflexivity. Qed.

Lemma auth_headers_not_str (v : pyval) :
  is_str v = false → auth_headers v = Raise TypeError.
Proof. by destruct v. Qed.

(** Case analysis on the arguments an operation concatenates. *)
Ltac case_pyvals :=
  repeat match goal with
         | v : pyval |- _ => destruct v
         end.

Section CatalogFacts.

Variable json_dumps : pydict → string.

(** Whatever request an authenticated operation hands to the transport,
    it carries the token it was given as a Bearer header. *)
Lemma perform_bearer (c : call) (r : request) :
  account_op c = false → perform json_dumps c = Return r →
  ∃ t, access_token_of c = Some (PStr t)
       ∧ header "Authorization" r = Some (PStr ("Bearer " +:+ t)).
Proof.
  intros Hacc Hr. destruct c; try discriminate Hacc; clear Hacc;
    case_pyvals; try discriminate Hr;
    injection Hr as <-; eexists; (split; [reflexivity |]); reflexivity.
Qed.

(** A token that is not a [str] stops every authenticated operation with
    a [TypeError]. *)
Lemma perform_token_not_str (c : call) (tok : pyval) :
  access_token_of c = Some tok → is_str tok = false →
  perform json_dumps c = Raise TypeError.
Proof.
  intros Htok Hstr. destruct c; try discriminate Htok;
    injection Htok as ->; case_pyvals; try discriminate Hstr; reflexivity.
Qed.

(** With [str] arguments an authenticated operation reaches its
    transport call. *)
Lemma perform_well_typed (c : call) :
  account_op c = false → well_typed c = true →
  ∃ r, perform json_dumps c = Return r.
Proof.
  intros Hacc Hwt. destruct c; try discriminate Hacc; clear Hacc;
    case_pyvals; try discriminate Hwt; eexists; reflexivity.
Qed.

End CatalogFacts.

(** ** Login *)

(** Every request [login] produces has this shape. *)
Lemma login_inv (username password : pyval) (r : request) :
  login username password = Return r →
  ∃ u p, username = PStr u ∧ password = PStr p
         ∧ is_ascii (u +:+ ":" +:+ p) = true
         ∧ ∃ enc, r = login_request ("Basic " +:+ enc).
Proof.
  unfold login. destruct username as [| | |u]; try discriminate.
  destruct password as [| | |p]; try discriminate.
  unfold add_str, str_add, encode_ascii, decode_ascii.
  unfold mbind at 1 2, outcome_bind. rewrite append_assoc.
  destruct (is_ascii _) eqn:Hascii; [| discriminate].
  unfold mbind at 1, outcome_bind.
  destruct (forallb is_ascii_byte _); [| discriminate].
  intros [= <-]. exists u, p. repeat split; try done. by eexists.
Qed.

Section CatalogShape.

Variable json_dumps : pydict → string.

Lemma account_op_token (c : call) :
  account_op c = true ↔ access_token_of c = None.
Proof. destruct c; simpl; split; congruence. Qed.

(** The URL of every request: host plus the account path for the four
    account operations, under the versioned prefix for all others. *)
Lemma perform_url (c : call) (r : request) :
  perform json_dumps c = Return r →
  if account_op c then url r = AEI_AI_URL +:+ account_path c
  else starts_with (API_URL +:+ "/") (url r) = true.
Proof.
  intros Hr. destruct c;
    try (apply login_inv in Hr as (u & p & _ & _ & _ & enc & ->);
         reflexivity);
    case_pyvals; try discriminate Hr; injection Hr as <-; reflexivity.
Qed.

(** No account operation sends a Bearer header. *)
Lemma perform_account_no_bearer (c : call) (r : request) (s : string) :
  account_op c = true → perform json_dumps c = Return r →
  header "Authorization" r = Some (PStr s) →
  starts_with "Bearer " s = false.
Proof.
  intros Hacc Hr. destruct c; try discriminate Hacc; clear Hacc.
  - injection Hr as <-. discriminate.
  - apply login_inv in Hr as (u & p & _ & _ & _ & enc & ->).
    intros [= <-]. reflexivity.
  - injection Hr as <-. discriminate.
  - injection Hr as <-. discriminate.
Qed.

End CatalogShape.

Section CatalogTheorems.

Variable json_dumps : pydict → string.

(** C1 (amended). For every operation that takes an access token and
    every token string, the empty one included, the request carries
    the Authorization header [Bearer ] followed by the token, character
    for character, and with [str] arguments the request is made.  No
    request without that header exists: a token that is left out
    ([None], or anything that is not a [str]) raises [TypeError] before
    the transport is called. *)
Theorem bearer_header_exact (c : call) (tok : pyval) :
  access_token_of c = Some tok →
  (∀ t r, tok = PStr t → perform json_dumps c = Return r →
     header "Authorization" r = Some (PStr ("Bearer " +:+ t)))
  ∧ (well_typed c = true → ∃ r, perform json_dumps c = Return r)
  ∧ (is_str tok = false → perform json_dumps c = Raise TypeError).
Proof.
  intros Htok.
  assert (account_op c = false) as Hacc.
  { destruct (account_op c) eqn:E; [| done].
    apply account_op_token in E. congruence. }
  split; [| split].
  - intros t r -> Hr.
    destruct (perform_bearer json_dumps c r Hacc Hr) as (t' & Ht' & Hh).
    rewrite Htok in Ht'. by injection Ht' as ->.
  - by apply perform_well_typed.
  - by apply perform_token_not_str.
Qed.

End CatalogTheorems.

Lemma bearer_header_exact_witness :
  ∃ r, perform (λ _, "{}") (GetUser (PStr "u1") (PStr "")) = Return r
       ∧ header "Authorization" r = Some (PStr "Bearer ").
Proof.
  destruct (bearer_header_exact (λ _, "{}") (GetUser (PStr "u1") (PStr ""))
              (PStr "") eq_refl) as (Hhdr & Hret & _).
  destruct (Hret eq_refl) as [r Hr]. exists r. split; [exact Hr |].
  exact (Hhdr "" r eq_refl Hr).
Defined.

(** With the token left out no request is produced at all, and with the
    empty token the request still has an Authorization header: a request
    without the header does not occur. *)
Lemma omitted_token_counterexample :
  (¬ ∃ r, get_user_list PNone = Return r ∧ header "Authorization" r = None)
  ∧ (¬ ∃ r, get_user_list (PStr "") = Return r
            ∧ header "Authorization" r = None).
Proof.
  split; intros (r & Hr & Hh).
  - discriminate Hr.
  - injection Hr as <-. discriminate Hh.
Qed.

(** ** Inputs *)

Lemma new_text_input_str (user_id interaction_id access_token : string)
    (text : pyval) :
  new_text_input (PStr user_id) (PStr interaction_id) text (PStr access_token)
  = Return (Request POST
      ("https://aei.ai/api/v1/inputs/text" +:+ "?user_id=" +:+ user_id
         +:+ "&interaction_id=" +:+ interaction_id)
      (Raw text)
      (Some {[ "Authorization" := PStr ("Bearer " +:+ access_token) ]})).
Proof.
  unfold new_text_input. rewrite auth_headers_str.
  change [("user_id", PStr user_id); ("interaction_id", PStr interaction_id)]
    with (str_items [("user_id", user_id); ("interaction_id", interaction_id)]).
  rewrite params_2_string_str_items. unfold key_value. simpl.
  by rewrite ?append_assoc.
Qed.

(** C5 (amended). Submitting text input with [interaction_id] absent
    ([None]) makes no request: building the query string raises
    [TypeError], whatever the other arguments are, and the key is not left
    out.  With both identifiers given as text the request is made and its
    query string names both keys. *)
Theorem new_text_input_missing_interaction_id :
  (∀ user_id text access_token : pyval,
     new_text_input user_id PNone text access_token = Raise TypeError)
  ∧ (∀ user_id : string,
       params_2_string
         (Some [("user_id", PStr user_id); ("interaction_id", PNone)])
       = Raise TypeError)
  ∧ (∀ (user_id interaction_id access_token : string) (text : pyval),
       ∃ r, new_text_input (PStr user_id) (PStr interaction_id) text
              (PStr access_token) = Return r
            ∧ url r = "https://aei.ai/api/v1/inputs/text?user_id="
                        +:+ user_id +:+ "&interaction_id="
                        +:+ interaction_id).
Proof.
  split; [| split].
  - intros user_id text access_token. unfold new_text_input.
    destruct access_token; try reflexivity.
    destruct user_id; reflexivity.
  - reflexivity.
  - intros. eexists. split; [apply new_text_input_str |]. reflexivity.
Qed.

(** The call the specification describes ends in an exception, not in a
    request. *)
Lemma missing_interaction_id_counterexample :
  ¬ ∃ r, new_text_input (PStr "u1") PNone (PStr "I am happy") (PStr "T")
         = Return r.
Proof. intros [r Hr]. discriminate Hr. Qed.

(** C7. [new_text_input] POSTs to [/inputs/text] under the versioned
    prefix with [user_id] and [interaction_id] in the query string of the
    URL and the text as the body; [new_interaction_list_input] POSTs to
    [/inputs/interaction-list] with the JSON string as the body and a URL
    without query string. *)
Theorem input_encoding_asymmetry
    (user_id interaction_id access_token : string) (text json_string : pyval) :
  new_text_input (PStr user_id) (PStr interaction_id) text (PStr access_token)
  = Return (Request POST
      (API_URL +:+ "/inputs/text" +:+ "?user_id=" +:+ user_id
         +:+ "&interaction_id=" +:+ interaction_id)
      (Raw text)
      (Some {[ "Authorization" := PStr ("Bearer " +:+ access_token) ]}))
  ∧ new_interaction_list_input json_string (PStr access_token)
    = Return (Request POST "https://aei.ai/api/v1/inputs/interaction-list"
        (Raw json_string)
        (Some {[ "Authorization" := PStr ("Bearer " +:+ access_token) ]})).
Proof.
  split; [| reflexivity].
  rewrite new_text_input_str. reflexivity.
Qed.

(** ** Interactions *)

(** C9. [create_new_interaction] POSTs to [/interactions] and
    [add_users_to_interaction] PUTs to [/interactions/{id}/users]; both
    send as body the same list of form fields, one [("user_id", id)] pair
    per element of [user_ids], in the order of the list. *)
Theorem user_ids_repeated_fields
    (interaction_id access_token : string) (user_ids : list pyval) :
  ∃ fields : list (string * pyval),
    create_new_interaction user_ids (PStr access_token)
    = Return (Request POST "https://aei.ai/api/v1/interactions" (Pairs fields)
        (Some {[ "Authorization" := PStr ("Bearer " +:+ access_token) ]}))
    ∧ add_users_to_interaction (PStr interaction_id) user_ids
        (PStr access_token)
      = Return (Request PUT
          ("https://aei.ai/api/v1/interactions/" +:+ interaction_id
             +:+ "/users")
          (Pairs fields)
          (Some {[ "Authorization" := PStr ("Bearer " +:+ access_token) ]}))
    ∧ length fields = length user_ids
    ∧ ∀ i : nat, fields !! i = (λ id, ("user_id", id)) <$> user_ids !! i.
Proof.
  exists (user_id_pairs user_ids). split; [reflexivity |].
  split.
  { unfold add_users_to_interaction. simpl. by rewrite ?append_assoc. }
  unfold user_id_pairs. split; [apply length_map |].
  intros i. apply list_lookup_fmap.
Qed.

(** ** Base64 round trip *)

Lemma forallb_N_below (P : N → bool) (k : nat) :
  forallb P (N_below k) = true → ∀ n, (n < N.of_nat k)%N → P n = true.
Proof.
  intros H n Hn. rewrite List.forallb_forall in H. apply H.
  unfold N_below. apply in_map_iff. exists (N.to_nat n).
  split; [apply N2Nat.id |]. apply in_seq. lia.
Qed.

Lemma alphabet_check_all (n : N) : (n < 64)%N → alphabet_check n = true.
Proof. apply (forallb_N_below alphabet_check 64). by vm_compute. Qed.

Lemma sextet_check_all (a b : N) :
  (a < 256)%N → (b < 256)%N → sextet_check a b = true.
Proof.
  intros Ha Hb.
  apply (forallb_N_below (λ b, sextet_check a b) 256); [| done].
  revert a Ha.
  apply (forallb_N_below (λ a, forallb (sextet_check a) (N_below 256)) 256).
  by vm_compute.
Qed.

Lemma octet2_check_all (a b k : N) :
  (a < 256)%N → (b < 256)%N → (k < 4)%N → octet2_check a b k = true.
Proof.
  intros Ha Hb Hk.
  apply (forallb_N_below (λ k, octet2_check a b k) 4); [| done].
  revert b Hb.
  apply (forallb_N_below
           (λ b, forallb (octet2_check a b) (N_below 4)) 256).
  revert a Ha.
  apply (forallb_N_below
           (λ a, forallb (λ b, forallb (octet2_check a b) (N_below 4))
                   (N_below 256)) 256).
  by vm_compute.
Qed.

Lemma byte_lt_256 (x : byte) : (Byte.to_N x < 256)%N.
Proof. pose proof (Byte.to_N_bounded x). lia. Qed.

Lemma index_char (n : N) :
  (n < 64)%N → Base64.index (Base64.char n) = Some n.
Proof.
  intros Hn. pose proof (alphabet_check_all n Hn) as H.
  unfold alphabet_check in H.
  destruct (Base64.index (Base64.char n)) as [m|]; [| done].
  apply andb_prop in H as [H _]. apply N.eqb_eq in H. by subst.
Qed.

Lemma char_not_pad (n : N) :
  (n < 64)%N → Byte.eqb (Base64.char n) Base64.pad = false.
Proof.
  intros Hn. pose proof (alphabet_check_all n Hn) as H.
  unfold alphabet_check in H.
  destruct (Base64.index (Base64.char n)); [| done].
  apply andb_prop in H as [_ H]. by apply negb_true_iff in H.
Qed.

(** What [sextet_check] establishes, as propositions. *)
Lemma sextet_facts (a b : N) :
  (a < 256)%N → (b < 256)%N →
  (Base64.sextet1 a < 64)%N ∧ (Base64.sextet2 a b < 64)%N
  ∧ (Base64.sextet3 a b < 64)%N ∧ (Base64.sextet4 a < 64)%N
  ∧ (N.shiftr a 6 < 4)%N
  ∧ N.land (N.lor (N.shiftl (Base64.sextet1 a) 2)
              (N.shiftr (Base64.sextet2 a b) 4)) 255 = a
  ∧ N.land (N.lor (N.shiftl (Base64.sextet3 a b) 6) (Base64.sextet4 b)) 255
    = b.
Proof.
  intros Ha Hb. pose proof (sextet_check_all a b Ha Hb) as H.
  unfold sextet_check in H.
  repeat (apply andb_prop in H as [H ?]).
  repeat split;
    first [by apply N.ltb_lt | by apply N.eqb_eq].
Qed.

Lemma byte_of_N_to_N (n : N) (x : byte) :
  N.land n 255 = Byte.to_N x → Base64.byte_of_N n = x.
Proof.
  intros H. unfold Base64.byte_of_N. by rewrite H, Byte.of_to_N.
Qed.

Lemma octet1_sextets (x y : byte) :
  Base64.octet1 (Base64.sextet1 (Byte.to_N x))
    (Base64.sextet2 (Byte.to_N x) (Byte.to_N y)) = x.
Proof.
  apply byte_of_N_to_N.
  apply (sextet_facts (Byte.to_N x) (Byte.to_N y)); apply byte_lt_256.
Qed.

Lemma octet1_sextets_last (x : byte) :
  Base64.octet1 (Base64.sextet1 (Byte.to_N x))
    (Base64.sextet2 (Byte.to_N x) 0) = x.
Proof.
  apply byte_of_N_to_N.
  apply (sextet_facts (Byte.to_N x) 0); [apply byte_lt_256 | done].
Qed.

Lemma octet2_sextets (x y : byte) (c : N) :
  (c < 256)%N →
  Base64.octet2 (Base64.sextet2 (Byte.to_N x) (Byte.to_N y))
    (Base64.sextet3 (Byte.to_N y) c) = y.
Proof.
  intros Hc. apply byte_of_N_to_N.
  assert (N.shiftr c 6 < 4)%N as Hk by (apply (sextet_facts c 0); done).
  pose proof (octet2_check_all (Byte.to_N x) (Byte.to_N y) (N.shiftr c 6)
                (byte_lt_256 x) (byte_lt_256 y) Hk) as H.
  by apply N.eqb_eq in H.
Qed.

Lemma octet3_sextets (y z : byte) :
  Base64.octet3 (Base64.sextet3 (Byte.to_N y) (Byte.to_N z))
    (Base64.sextet4 (Byte.to_N z)) = z.
Proof.
  apply byte_of_N_to_N.
  apply (sextet_facts (Byte.to_N y) (Byte.to_N z)); apply byte_lt_256.
Qed.

(** Induction over a byte sequence three bytes at a time, the way the
    encoder consumes it. *)
Lemma list_ind3 {A : Type} (P : list A → Prop) :
  P [] → (∀ x, P [x]) → (∀ x y, P [x; y]) →
  (∀ x y z l, P l → P (x :: y :: z :: l)) → ∀ l, P l.
Proof.
  intros H0 H1 H2 H3. fix IH 1.
  intros [|x [|y [|z l]]]; [done | done | done |]. apply H3, IH.
Qed.

Lemma b64decode_group (c1 c2 c3 c4 : byte) (rest : list byte) :
  Base64.b64decode (c1 :: c2 :: c3 :: c4 :: rest)
  = s1 ← Base64.index c1;
    s2 ← Base64.index c2;
    if Byte.eqb c4 Base64.pad && bool_decide (rest = []) then
      if Byte.eqb c3 Base64.pad then Some [Base64.octet1 s1 s2]
      else s3 ← Base64.index c3;
           Some [Base64.octet1 s1 s2; Base64.octet2 s2 s3]
    else
      s3 ← Base64.index c3;
      s4 ← Base64.index c4;
      tl ← Base64.b64decode rest;
      Some (Base64.octet1 s1 s2 :: Base64.octet2 s2 s3
              :: Base64.octet3 s3 s4 :: tl).
Proof. reflexivity. Qed.

Lemma b64decode_b64encode (bs : list byte) :
  Base64.b64decode (Base64.b64encode bs) = Some bs.
Proof.
  induction bs as [|x|x y|x y z bs IH] using list_ind3.
  - reflexivity.
  - destruct (sextet_facts (Byte.to_N x) 0) as (H1 & H2 & _);
      [apply byte_lt_256 | done |].
    change (Base64.b64encode [x]) with
      [Base64.char (Base64.sextet1 (Byte.to_N x));
       Base64.char (Base64.sextet2 (Byte.to_N x) 0);
       Base64.pad; Base64.pad].
    rewrite b64decode_group, !index_char by done. simpl.
    by rewrite octet1_sextets_last.
  - destruct (sextet_facts (Byte.to_N x) (Byte.to_N y)) as (H1 & H2 & _);
      [apply byte_lt_256 .. |].
    destruct (sextet_facts (Byte.to_N y) 0) as (_ & _ & H3 & _);
      [apply byte_lt_256 | done |].
    change (Base64.b64encode [x; y]) with
      [Base64.char (Base64.sextet1 (Byte.to_N x));
       Base64.char (Base64.sextet2 (Byte.to_N x) (Byte.to_N y));
       Base64.char (Base64.sextet3 (Byte.to_N y) 0);
       Base64.pad].
    rewrite b64decode_group, !index_char, char_not_pad by done. simpl.
    by rewrite octet1_sextets, octet2_sextets.
  - destruct (sextet_facts (Byte.to_N x) (Byte.to_N y)) as (H1 & H2 & _);
      [apply byte_lt_256 .. |].
    destruct (sextet_facts (Byte.to_N y) (Byte.to_N z)) as (_ & _ & H3 & _);
      [apply byte_lt_256 .. |].
    destruct (sextet_facts (Byte.to_N z) 0) as (_ & _ & _ & H4 & _);
      [apply byte_lt_256 | done |].
    change (Base64.b64encode (x :: y :: z :: bs)) with
      (Base64.char (Base64.sextet1 (Byte.to_N x))
       :: Base64.char (Base64.sextet2 (Byte.to_N x) (Byte.to_N y))
       :: Base64.char (Base64.sextet3 (Byte.to_N y) (Byte.to_N z))
       :: Base64.char (Base64.sextet4 (Byte.to_N z))
       :: Base64.b64encode bs).
    rewrite b64decode_group, !index_char, (char_not_pad _ H4), IH by done.
    simpl.
    by rewrite octet1_sextets, octet2_sextets, octet3_sextets
      by apply byte_lt_256.
Qed.

(** ** Text, bytes and the Basic credential *)

Lemma to_N_byte_of_ascii (c : ascii) :
  Byte.to_N (byte_of_ascii c) = N_of_ascii c.
Proof. apply Byte.to_of_N. symmetry. apply byte_of_ascii_via_N. Qed.

Lemma list_byte_of_string_ascii (s : string) :
  forallb is_ascii_byte (String.list_byte_of_string s) = is_ascii s.
Proof.
  unfold is_ascii, String.list_byte_of_string.
  induction (list_ascii_of_string s) as [|c l IH]; simpl; [done |].
  rewrite IH. unfold is_ascii_byte, is_ascii_char.
  by rewrite to_N_byte_of_ascii.
Qed.

Lemma is_ascii_append (a b : string) :
  is_ascii (a +:+ b) = is_ascii a && is_ascii b.
Proof.
  unfold is_ascii. induction a as [|c a IH]; simpl; [done |].
  by rewrite IH, andb_assoc.
Qed.

Lemma decode_encode_ascii (s : string) :
  is_ascii s = true → decode_ascii (String.list_byte_of_string s) = Return s.
Proof.
  intros H. unfold decode_ascii.
  by rewrite list_byte_of_string_ascii, H, String.string_of_list_byte_of_string.
Qed.

Lemma char_ascii (n : N) : is_ascii_byte (Base64.char n) = true.
Proof.
  unfold Base64.char.
  destruct (nth_in_or_default (N.to_nat n) Base64.alphabet Base64.pad)
    as [Hin | ->]; [| reflexivity].
  revert Hin. generalize (nth (N.to_nat n) Base64.alphabet Base64.pad).
  apply List.forallb_forall. by vm_compute.
Qed.

Lemma b64encode_ascii (bs : list byte) :
  forallb is_ascii_byte (Base64.b64encode bs) = true.
Proof.
  induction bs as [|x|x y|x y z bs IH] using list_ind3.
  - reflexivity.
  - simpl. by rewrite !char_ascii.
  - simpl. by rewrite !char_ascii.
  - change (Base64.b64encode (x :: y :: z :: bs)) with
      (Base64.char (Base64.sextet1 (Byte.to_N x))
       :: Base64.char (Base64.sextet2 (Byte.to_N x) (Byte.to_N y))
       :: Base64.char (Base64.sextet3 (Byte.to_N y) (Byte.to_N z))
       :: Base64.char (Base64.sextet4 (Byte.to_N z))
       :: Base64.b64encode bs).
    simpl. by rewrite !char_ascii, IH.
Qed.

Lemma contains_char_cons (c x : ascii) (s : string) :
  contains_char c (String x s) = Ascii.eqb c x || contains_char c s.
Proof. reflexivity. Qed.

Lemma split_first_cons (sep c : ascii) (s : string) :
  split_first sep (String c s)
  = if Ascii.eqb c sep then (EmptyString, s)
    else (String c (split_first sep s).1, (split_first sep s).2).
Proof. simpl. destruct (Ascii.eqb c sep); [done |]. by destruct split_first. Qed.

Lemma split_first_colon (u p : string) :
  contains_char ":" u = false → split_first ":" (u +:+ ":" +:+ p) = (u, p).
Proof.
  induction u as [|c u IH]; [done |].
  rewrite contains_char_cons. intros H.
  apply orb_false_elim in H as [Hc Hu].
  change (String c u +:+ ":" +:+ p) with (String c (u +:+ ":" +:+ p)).
  rewrite split_first_cons, Ascii.eqb_sym, Hc. by rewrite IH.
Qed.

Lemma login_ascii (username password : string) :
  is_ascii username = true → is_ascii password = true →
  login (PStr username) (PStr password)
  = Return (login_request (basic_header username password)).
Proof.
  intros Hu Hp. unfold login, add_str, str_add, encode_ascii, decode_ascii.
  unfold mbind at 1 2, outcome_bind. rewrite append_assoc.
  assert (is_ascii (username +:+ ":" +:+ password) = true) as ->.
  { rewrite !is_ascii_append, Hu, Hp. reflexivity. }
  unfold mbind at 1, outcome_bind. by rewrite b64encode_ascii.
Qed.

Lemma login_non_ascii (username password : string) :
  is_ascii (username +:+ ":" +:+ password) = false →
  login (PStr username) (PStr password) = Raise UnicodeEncodeError.
Proof.
  intros H. unfold login, add_str, str_add, encode_ascii.
  unfold mbind at 1 2, outcome_bind. rewrite append_assoc. by rewrite H.
Qed.

Lemma basic_credentials_header (username password : string) :
  is_ascii username = true → is_ascii password = true →
  contains_char ":" username = false →
  basic_credentials (basic_header username password)
  = Some (username, password).
Proof.
  intros Hu Hp Hcolon. unfold basic_credentials, basic_header, base64_text.
  change (strip_prefix "Basic " ("Basic " +:+ ?s)) with (Some s). simpl.
  rewrite String.list_byte_of_string_of_list_byte, b64decode_b64encode.
  simpl. change (username +:+ String ":" password)
    with (username +:+ ":" +:+ password).
  rewrite decode_encode_ascii.
  - by rewrite split_first_colon.
  - rewrite !is_ascii_append, Hu, Hp. reflexivity.
Qed.

(** C4 (amended). For every username and password made of ASCII
    characters, [login] sends the Authorization header [Basic ] followed
    by the base64 text of [username:password]; decoding the credential
    part and splitting at the first colon gives the username and the
    password back whenever the username has no colon.  A character
    outside ASCII in either of them makes [login] raise
    [UnicodeEncodeError] instead of sending a request. *)
Theorem login_basic_header :
  (∀ username password : string,
     is_ascii username = true → is_ascii password = true →
     ∃ r, login (PStr username) (PStr password) = Return r
          ∧ header "Authorization" r
            = Some (PStr ("Basic "
                          +:+ base64_text (username +:+ ":" +:+ password)))
          ∧ (contains_char ":" username = false →
             basic_credentials (basic_header username password)
             = Some (username, password)))
  ∧ (∃ r, login (PStr "alice") (PStr "s3cret") = Return r
          ∧ header "Authorization" r = Some (PStr "Basic YWxpY2U6czNjcmV0"))
  ∧ (∀ username password : string,
       is_ascii (username +:+ ":" +:+ password) = false →
       login (PStr username) (PStr password) = Raise UnicodeEncodeError).
Proof.
  split; [| split].
  - intros username password Hu Hp. eexists.
    split; [by apply login_ascii |]. split; [reflexivity |].
    by apply basic_credentials_header.
  - eexists. split; reflexivity.
  - apply login_non_ascii.
Qed.

Lemma login_basic_header_witness :
  basic_credentials (basic_header "bob" "pa:ss") = Some ("bob", "pa:ss").
Proof.
  destruct (proj1 login_basic_header "bob" "pa:ss" eq_refl eq_refl)
    as (r & _ & _ & Hround).
  exact (Hround eq_refl).
Defined.

(** A username outside ASCII: [login] raises and no header is built. *)
Lemma login_non_ascii_counterexample :
  ¬ ∃ r, login (PStr (String "233"%char "")) (PStr "s3cret") = Return r.
Proof. intros [r Hr]. discriminate Hr. Qed.

(** ** Outcomes of [login] *)

(** The credentials are assembled as [username:password]; the base64 text
    is always ASCII, so the only failures are a non-text argument and a
    character [encode("ascii")] rejects. *)
Lemma login_cases (username password : pyval) :
  login username password
  = match username, password with
    | PStr u, PStr p =>
        if is_ascii (u +:+ ":" +:+ p)
        then Return (login_request (basic_header u p))
        else Raise UnicodeEncodeError
    | _, _ => Raise TypeError
    end.
Proof.
  destruct username as [| | |u]; try reflexivity.
  destruct password as [| | |p]; try reflexivity.
  destruct (is_ascii (u +:+ ":" +:+ p)) eqn:Hascii.
  - rewrite is_ascii_append in Hascii. apply andb_prop in Hascii as [Hu Hp].
    change (is_ascii (":" +:+ p)) with (is_ascii p) in Hp.
    by apply login_ascii.
  - by apply login_non_ascii.
Qed.

(** ** The account operations *)

Section AccountOperations.

Variable json_dumps : pydict → string.

(** C6. Every operation other than [register], [login],
    [reset_password] and [update_password] sends its access token as
    [Authorization: Bearer <access_token>] on the request it makes (and
    makes one whenever its text arguments are [str]).  Those four take no
    access token and send no Bearer header; each of them makes its
    request ([register], [reset_password] and [update_password] for all
    arguments, [login] for ASCII text) and that request carries the
    credentials in its headers or its body. *)
Theorem bearer_catalog_invariant (c : call) :
  (account_op c = false →
     (∀ r, perform json_dumps c = Return r →
        ∃ t, access_token_of c = Some (PStr t)
             ∧ header "Authorization" r = Some (PStr ("Bearer " +:+ t)))
     ∧ (well_typed c = true → ∃ r, perform json_dumps c = Return r))
  ∧ (account_op c = true →
       access_token_of c = None
       ∧ (∀ r, perform json_dumps c = Return r →
            (∀ s, header "Authorization" r = Some (PStr s) →
               starts_with "Bearer " s = false)
            ∧ match c with
              | Register u e p a =>
                  header "username" r = Some u ∧ header "email" r = Some e
                  ∧ header "password" r = Some p
              | Login u p =>
                  ∃ su sp, u = PStr su ∧ p = PStr sp
                    ∧ header "Authorization" r
                      = Some (PStr (basic_header su sp))
              | ResetPassword e => data r = Dict [("email", e)]
              | UpdatePassword u tok p =>
                  header "username" r = Some u ∧ header "token" r = Some tok
                  ∧ header "password" r = Some p
              | _ => True
              end)
       ∧ match c with
         | Register _ _ _ _ | ResetPassword _ | UpdatePassword _ _ _ =>
             ∃ r, perform json_dumps c = Return r
         | Login u p =>
             ∀ su sp, u = PStr su → p = PStr sp →
               is_ascii su = true → is_ascii sp = true →
               ∃ r, perform json_dumps c = Return r
                    ∧ header "Authorization" r
                      = Some (PStr (basic_header su sp))
         | _ => True
         end).
Proof.
  split.
  - intros Hacc. split.
    + intros r Hr. by apply (perform_bearer json_dumps).
    + by apply perform_well_typed.
  - intros Hacc. split; [by apply account_op_token |]. split.
    + intros r Hr. split.
      * intros s. by apply (perform_account_no_bearer json_dumps c).
      * destruct c; try discriminate Hacc.
        -- injection Hr as <-. by repeat split.
        -- simpl in Hr. rewrite login_cases in Hr.
           destruct username as [| | |u]; try discriminate Hr.
           destruct password as [| | |p]; try discriminate Hr.
           destruct (is_ascii (u +:+ ":" +:+ p)); [| discriminate Hr].
           injection Hr as <-. by exists u, p.
        -- by injection Hr as <-.
        -- injection Hr as <-. by repeat split.
    + destruct c; try discriminate Hacc.
      * by eexists.
      * intros su sp -> -> Hu Hp. eexists.
        split; [by apply login_ascii | reflexivity].
      * by eexists.
      * by eexists.
Qed.

(** C8. The four account operations address the bare host with an
    unversioned path ([/register], [/oauth/token], [/reset-password],
    [/update-password]), never under [/api/v1]; every other operation
    addresses a path under the versioned prefix.  Each of these requests
    is made: [register] always, as a POST without body whose headers are
    exactly the four credentials; [reset_password] and [update_password]
    always; [login] for ASCII text; the other operations whenever their
    text arguments are [str]. *)
Theorem account_urls_unversioned :
  (∀ (c : call) (r : request), perform json_dumps c = Return r →
     if account_op c
     then url r = "https://aei.ai" +:+ account_path c
          ∧ starts_with "https://aei.ai/api" (url r) = false
     else starts_with "https://aei.ai/api/v1/" (url r) = true)
  ∧ (∀ username email password agreed : pyval,
       register username email password agreed
       = Return (Request POST "https://aei.ai/register" (Raw PNone)
                   (Some {[ "username" := username; "email" := email;
                            "password" := password;
                            "agreed" := agreed ]})))
  ∧ (∀ email : pyval,
       reset_password email
       = Return (Request POST "https://aei.ai/reset-password"
                   (Dict [("email", email)]) None))
  ∧ (∀ username password_reset_token new_password : pyval,
       update_password username password_reset_token new_password
       = Return (Request PUT "https://aei.ai/update-password" (Raw PNone)
                   (Some {[ "username" := username;
                            "token" := password_reset_token;
                            "password" := new_password ]})))
  ∧ (∀ username password : string,
       is_ascii username = true → is_ascii password = true →
       ∃ r, login (PStr username) (PStr password) = Return r
            ∧ method r = POST ∧ url r = "https://aei.ai/oauth/token")
  ∧ (∀ c : call, account_op c = false → well_typed c = true →
       ∃ r, perform json_dumps c = Return r
            ∧ starts_with "https://aei.ai/api/v1/" (url r) = true).
Proof.
  split; [| split; [reflexivity |]; split; [reflexivity |];
            split; [reflexivity |]; split].
  - intros c r Hr. pose proof (perform_url json_dumps c r Hr) as Hu.
    destruct (account_op c) eqn:Hacc; [| exact Hu].
    split; [exact Hu |]. rewrite Hu.
    by destruct c; try discriminate Hacc.
  - intros username password Hu Hp. eexists.
    split; [by apply login_ascii |]. by split.
  - intros c Hacc Hwt.
    destruct (perform_well_typed json_dumps c Hacc Hwt) as [r Hr].
    exists r. split; [exact Hr |].
    pose proof (perform_url json_dumps c r Hr) as Hu.
    by rewrite Hacc in Hu.
Qed.

End AccountOperations.

Lemma bearer_catalog_invariant_witness :
  (∃ r, perform (λ _, "{}") (ChangePassword (PStr "pw") (PStr "T")) = Return r
        ∧ header "Authorization" r = Some (PStr "Bearer T"))
  ∧ (∃ r, perform (λ _, "{}") (ResetPassword (PStr "a@b.c")) = Return r
          ∧ data r = Dict [("email", PStr "a@b.c")])
  ∧ (∃ r, perform (λ _, "{}") (Login (PStr "alice") (PStr "s3cret")) = Return r
          ∧ header "Authorization" r = Some (PStr "Basic YWxpY2U6czNjcmV0")).
Proof.
  split; [| split].
  - destruct (bearer_catalog_invariant (λ _, "{}")
                (ChangePassword (PStr "pw") (PStr "T"))) as [Hauth _].
    destruct (Hauth eq_refl) as [Hhdr Hret].
    destruct (Hret eq_refl) as [r Hr]. exists r. split; [exact Hr |].
    destruct (Hhdr r Hr) as (t & Ht & Hh). injection Ht as <-. exact Hh.
  - destruct (bearer_catalog_invariant (λ _, "{}")
                (ResetPassword (PStr "a@b.c"))) as [_ Hacc].
    destruct (Hacc eq_refl) as (_ & Hcarry & [r Hr]).
    exists r. split; [exact Hr |]. exact (proj2 (Hcarry r Hr)).
  - destruct (bearer_catalog_invariant (λ _, "{}")
                (Login (PStr "alice") (PStr "s3cret"))) as [_ Hacc].
    destruct (Hacc eq_refl) as (_ & _ & Hlogin).
    exact (Hlogin "alice" "s3cret" eq_refl eq_refl eq_refl eq_refl).
Defined.

Lemma account_urls_unversioned_witness :
  (url (login_request "Basic dTpw") = "https://aei.ai/oauth/token"
   ∧ starts_with "https://aei.ai/api" (url (login_request "Basic dTpw"))
     = false)
  ∧ (∃ r, login (PStr "u") (PStr "p") = Return r
          ∧ method r = POST ∧ url r = "https://aei.ai/oauth/token")
  ∧ (∃ r, perform (λ _, "{}") (GetUser (PStr "u1") (PStr "T")) = Return r
          ∧ starts_with "https://aei.ai/api/v1/" (url r) = true).
Proof.
  destruct (account_urls_unversioned (λ _, "{}"))
    as (Hurl & _ & _ & _ & Hlogin & Hres).
  split; [| split].
  - exact (Hurl (Login (PStr "u") (PStr "p")) (login_request "Basic dTpw")
             eq_refl).
  - exact (Hlogin "u" "p" eq_refl eq_refl).
  - exact (Hres (GetUser (PStr "u1") (PStr "T")) eq_refl eq_refl).
Defined.

(** * Further properties of the request layer *)

(** ** Query strings with values that are not text *)

Lemma params_loop_outcome (items : pydict) (out : string) :
  if values_are_str items then ∃ s, params_loop items out = Return s
  else params_loop items out = Raise TypeError.
Proof.
  revert out. induction items as [|[k v] items IH]; intros out.
  - by exists out.
  - destruct v as [| | |s]; try reflexivity.
    change (values_are_str ((k, PStr s) :: items))
      with (values_are_str items).
    apply (IH (((out +:+ k +:+ "=") +:+ s) +:+ "&")).
Qed.

(** X1. [params_2_string] on a non-empty parameter map returns a query
    string exactly when every value is a [str]; one value of another type
    ([None], a number, a boolean) anywhere in the map makes the whole call
    raise [TypeError], and no partial string is returned. *)
Theorem params_2_string_returns_iff_str (kv : string * pyval) (items : pydict) :
  ((∃ s, params_2_string (Some (kv :: items)) = Return s)
   ↔ values_are_str (kv :: items) = true)
  ∧ (params_2_string (Some (kv :: items)) = Raise TypeError
     ↔ values_are_str (kv :: items) = false).
Proof.
  pose proof (params_loop_outcome (kv :: items) "?") as H.
  unfold params_2_string.
  change (bool_decide (length (kv :: items) = 0)) with false. cbv iota.
  destruct (values_are_str (kv :: items)).
  - destruct H as [s ->]. split; split; try done.
    intros _. by eexists.
  - rewrite H. split; split; try done. by intros [s Hs].
Qed.

(** X2. Values are copied into the query string as they are, so the
    string does not determine the parameters: a single parameter whose
    value contains [&k'=v'] gives the same query string as the two
    parameters [k=v] and [k'=v']. *)
Theorem params_2_string_not_injective (k v k' v' : string) :
  params_2_string (Some (str_items [(k, v +:+ "&" +:+ k' +:+ "=" +:+ v')]))
  = params_2_string (Some (str_items [(k, v); (k', v')]))
  ∧ str_items [(k, v +:+ "&" +:+ k' +:+ "=" +:+ v')]
    ≠ str_items [(k, v); (k', v')].
Proof.
  split; [| discriminate].
  rewrite !params_2_string_str_items. unfold key_value. simpl.
  by rewrite ?append_assoc.
Qed.

(** ** All outcomes of the status helper *)

(** X3. [is_success] returns true exactly when the status has a [code]
    entry that is the integer 200, whatever else the status holds; a code
    given as the text ["200"], as [None] or as a boolean is not a
    success. *)
Theorem is_success_true_iff (status : gmap string pyval) (out : list string) :
  (is_success status out).1 = Return true
  ↔ status !! "code" = Some (PInt 200).
Proof.
  split; [| intros H; by rewrite is_success_ok].
  unfold is_success, getitem, print, mbind, io_bind, mret, io_ret, mthrow,
    io_throw.
  destruct (status !! "code") as [code|]; [| discriminate]. simpl.
  destruct (py_ne_int code 200) eqn:Hne.
  - destruct (status !! "error"); [| discriminate]. simpl.
    destruct (status !! "help"); discriminate.
  - intros _. f_equal. by apply py_ne_int_200.
Qed.

(** X4. [is_success] only appends to the output: for every status there
    are at most two lines such that, whatever was printed before, the
    call leaves the earlier output in place followed by those lines, and
    its result does not depend on the earlier output. *)
Theorem is_success_output_frame (status : gmap string pyval) :
  ∃ (res : outcome bool) (lines : list string),
    length lines ≤ 2
    ∧ ∀ out : list string, is_success status out = (res, out ++ lines).
Proof.
  unfold is_success, getitem, print, mbind, io_bind, mret, io_ret, mthrow,
    io_throw.
  destruct (status !! "code") as [code|].
  - simpl. destruct (py_ne_int code 200).
    + destruct (status !! "error") as [e|]; simpl.
      * destruct (status !! "help") as [h|]; simpl.
        -- exists (Return false), [py_str e; py_str h]. split; [simpl; lia |].
           intros out. by rewrite <- app_assoc.
        -- exists (Raise (KeyError "help")), [py_str e]. split; [simpl; lia |].
           done.
      * exists (Raise (KeyError "error")), []. split; [simpl; lia |].
        intros out. by rewrite app_nil_r.
    + exists (Return true), []. split; [simpl; lia |].
      intros out. by rewrite app_nil_r.
  - exists (Raise (KeyError "code")), []. split; [simpl; lia |].
    intros out. by rewrite app_nil_r.
Qed.

(** X5. [is_success] raises only [KeyError], for the first missing key
    in the order it reads them: [code] always; [error] and then [help]
    only when the code is not 200.  A status with code 200 never raises,
    even without [error] and [help]. *)
Theorem is_success_raises_iff (status : gmap string pyval)
    (out : list string) (e : exn) :
  (is_success status out).1 = Raise e
  ↔ (status !! "code" = None ∧ e = KeyError "code")
    ∨ (∃ code, status !! "code" = Some code ∧ code ≠ PInt 200
         ∧ ((status !! "error" = None ∧ e = KeyError "error")
            ∨ (is_Some (status !! "error") ∧ status !! "help" = None
               ∧ e = KeyError "help"))).
Proof.
  unfold is_success, getitem, print, mbind, io_bind, mret, io_ret, mthrow,
    io_throw.
  destruct (status !! "code") as [code|]; simpl.
  - destruct (py_ne_int code 200) eqn:Hne.
    + assert (code ≠ PInt 200) as Hcode.
      { intros ->. discriminate Hne. }
      destruct (status !! "error") as [err|]; simpl.
      * destruct (status !! "help") as [h|]; simpl.
        -- split; [discriminate |].
           intros [[? _] | (c & _ & _ & [[? _] | (_ & ? & _)])]; discriminate.
        -- split.
           ++ intros [= <-]. right. exists code. eauto 10.
           ++ intros [[? _] | (c & _ & _ & [[? _] | (_ & _ & ->)])];
                try discriminate; done.
      * split.
        -- intros [= <-]. right. exists code. eauto 10.
        -- intros [[? _] | (c & _ & _ & [[_ ->] | ([? ?] & _)])];
             try discriminate; done.
    + apply py_ne_int_200 in Hne as ->. split; [discriminate |].
      intros [[? _] | (c & [= <-] & Hc & _)]; [discriminate | done].
  - split.
    + intros [= <-]. by left.
    + intros [[_ ->] | (c & ? & _)]; [done | discriminate].
Qed.

(** ** Outcomes of [login], one by one *)

(** X6. [login] makes its request exactly when both arguments are text
    made of ASCII characters; it raises [TypeError] exactly when one of
    them is not a [str], and [UnicodeEncodeError] exactly when both are
    text and one holds a character outside ASCII.  Decoding the base64
    text never fails. *)
Theorem login_outcomes (username password : pyval) :
  ((∃ r, login username password = Return r)
   ↔ ∃ u p, username = PStr u ∧ password = PStr p
            ∧ is_ascii u = true ∧ is_ascii p = true)
  ∧ (login username password = Raise TypeError
     ↔ is_str username = false ∨ is_str password = false)
  ∧ (login username password = Raise UnicodeEncodeError
     ↔ ∃ u p, username = PStr u ∧ password = PStr p
              ∧ (is_ascii u = false ∨ is_ascii p = false))
  ∧ login username password ≠ Raise UnicodeDecodeError.
Proof.
  rewrite login_cases.
  destruct username as [| | |u];
    try (repeat split; try discriminate; try (by intros (? & ? & ? & _));
         try (by intros [? ?]); by (intros _; left)).
  destruct password as [| | |p];
    try (repeat split; try discriminate; try (by intros (? & ? & _ & ? & _));
         try (by intros [? ?]); by (intros _; right)).
  assert (is_ascii (u +:+ ":" +:+ p) = is_ascii u && is_ascii p) as ->.
  { by rewrite !is_ascii_append. }
  destruct (is_ascii u) eqn:Hu, (is_ascii p) eqn:Hp; simpl;
    repeat split; try discriminate;
    try (by intros [? | ?]);
    try (by intros (? & ? & [= <-] & [= <-] & [? | ?]); congruence);
    try (by intros (? & ? & [= <-] & [= <-] & ? & ?); congruence);
    try (by intros [? ?]);
    try (intros _; exists u, p; by auto);
    try (intros _; by eexists).
Qed.


(** X8. For ASCII credentials whose usernames have no colon, the login
    request determines the credentials: two pairs that make the same
    request are the same pair. *)
Theorem login_request_determines_credentials (u1 p1 u2 p2 : string) :
  is_ascii u1 = true → is_ascii p1 = true →
  is_ascii u2 = true → is_ascii p2 = true →
  contains_char ":" u1 = false → contains_char ":" u2 = false →
  login (PStr u1) (PStr p1) = login (PStr u2) (PStr p2) →
  u1 = u2 ∧ p1 = p2.
Proof.
  intros Hu1 Hp1 Hu2 Hp2 Hc1 Hc2.
  rewrite !login_ascii by done. intros Hreq.
  apply (f_equal (λ o, match o with
                       | Return r => header "Authorization" r
                       | Raise _ => None
                       end)) in Hreq.
  change (Some (PStr (basic_header u1 p1)) = Some (PStr (basic_header u2 p2)))
    in Hreq.
  assert (basic_header u1 p1 = basic_header u2 p2) as Heq by congruence.
  apply (f_equal basic_credentials) in Heq.
  rewrite !basic_credentials_header in Heq by done.
  by injection Heq.
Qed.

Lemma login_request_determines_credentials_witness :
  "bob" = "bob" ∧ "pa:ss" = "pa:ss".
Proof.
  exact (login_request_determines_credentials "bob" "pa:ss" "bob" "pa:ss"
           eq_refl eq_refl eq_refl eq_refl eq_refl eq_refl eq_refl).
Defined.

(** ** The catalog as a whole *)

Lemma header_singleton_other (name key : string) (v : pyval) :
  name ≠ key → ({[ key := v ]} : gmap string pyval) !! name = None.
Proof. intros Hne. by apply lookup_singleton_ne. Qed.

Section CatalogExtras.

Variable json_dumps : pydict → string.

(** X9. The access token reaches the request only through the
    Authorization header: running an operation with another token gives a
    request with the same method, the same URL, the same body and the
    same other headers. *)
Theorem token_only_in_authorization_header (c : call) (t t' : string)
    (r : request) :
  perform json_dumps (with_token (PStr t) c) = Return r →
  ∃ r', perform json_dumps (with_token (PStr t') c) = Return r'
        ∧ method r' = method r ∧ url r' = url r ∧ data r' = data r
        ∧ ∀ name, name ≠ "Authorization" → header name r' = header name r.
Proof.
  intros Hr. destruct c; simpl in Hr |- *;
    try (exists r; by repeat split);
    case_pyvals; try discriminate Hr; injection Hr as <-;
    eexists; (split; [reflexivity |]); repeat split;
    intros name Hne; unfold header; simpl;
    rewrite ?lookup_insert_ne by done;
    try (destruct (decide (name = "password")) as [-> | Hpw];
         [by rewrite !lookup_insert_eq | rewrite !lookup_insert_ne by done]);
    by rewrite !header_singleton_other.
Qed.

(** X10. An operation that takes an access token makes its request
    exactly when the token and the identifiers it puts into the URL are
    all [str]; with any of them of another type it raises [TypeError] and
    nothing else. *)
Theorem authenticated_returns_iff_well_typed (c : call) :
  account_op c = false →
  ((∃ r, perform json_dumps c = Return r) ↔ well_typed c = true)
  ∧ (perform json_dumps c = Raise TypeError ↔ well_typed c = false).
Proof.
  intros Hacc. destruct c; try discriminate Hacc; clear Hacc;
    case_pyvals; (split; split);
    first [ discriminate | by intros [? ?] | by (intros _; eexists) | done ].
Qed.


End CatalogExtras.

(** X13. Identifiers are put into the path as they are: [get_user] with
    an identifier that ends in a facet name makes the request of that
    facet's reader, and [get_user] with the empty identifier makes the
    request of [get_user_list]. *)
Theorem path_segments_not_escaped (user_id : string) (access_token : pyval) :
  get_user (PStr (user_id +:+ "/emotion")) access_token
  = get_user_emotion (PStr user_id) access_token
  ∧ get_user (PStr (user_id +:+ "/mood")) access_token
    = get_user_mood (PStr user_id) access_token
  ∧ get_user (PStr (user_id +:+ "/personality")) access_token
    = get_user_personality (PStr user_id) access_token
  ∧ get_user (PStr (user_id +:+ "/satisfaction")) access_token
    = get_user_satisfaction (PStr user_id) access_token
  ∧ get_user (PStr (user_id +:+ "/social-perception")) access_token
    = get_user_social_perception (PStr user_id) access_token
  ∧ get_user (PStr "") access_token = get_user_list access_token.
Proof.
  unfold get_user, get_user_emotion, get_user_mood, get_user_personality,
    get_user_satisfaction, get_user_social_perception, get_user_list, str_add.
  simpl. rewrite ?append_assoc. by repeat split.
Qed.

Lemma token_only_in_authorization_header_witness :
  ∃ r', perform (λ _, "{}") (ChangePassword (PStr "pw") (PStr "T2"))
        = Return r'
        ∧ url r' = "https://aei.ai/api/v1/clients/password"
        ∧ header "password" r' = Some (PStr "pw").
Proof.
  destruct (token_only_in_authorization_header (λ _, "{}")
              (ChangePassword (PStr "pw") (PStr "T1")) "T1" "T2" _ eq_refl)
    as (r' & Hr' & _ & Hurl & _ & Hhdr).
  exists r'. split; [exact Hr' |]. split; [exact Hurl |].
  exact (Hhdr "password" ltac:(discriminate)).
Defined.

Lemma authenticated_returns_iff_well_typed_witness :
  perform (λ _, "{}") (GetUser PNone (PStr "T")) = Raise TypeError.
Proof.
  exact (proj2 (proj2 (authenticated_returns_iff_well_typed (λ _, "{}")
                         (GetUser PNone (PStr "T")) eq_refl)) eq_refl).
Defined.


(** X14. An operation that takes an access token sends no header besides
    Authorization, except [change_password], which adds the [password]
    header; in particular the JSON and form bodies go out without a
    Content-Type header of the client's own. *)
Theorem authenticated_headers_only_authorization
    (json_dumps : pydict → string) (c : call) (r : request) (name : string) :
  account_op c = false → perform json_dumps c = Return r →
  is_Some (header name r) →
  name = "Authorization"
  ∨ (name = "password" ∧ ∃ p t, c = ChangePassword p t).
Proof.
  intros Hacc Hr. destruct c; try discriminate Hacc; clear Hacc;
    case_pyvals; try discriminate Hr; injection Hr as <-;
    unfold header; simpl;
    destruct (decide (name = "Authorization")) as [-> | Hne];
    try (intros _; by left);
    try (destruct (decide (name = "password")) as [-> | Hpw];
         [intros _; right; split; [done | by eauto]
         | rewrite lookup_insert_ne by done]);
    rewrite header_singleton_other by done; by intros [? ?].
Qed.

Lemma authenticated_headers_only_authorization_witness :
  "password" = "Authorization"
  ∨ ("password" = "password"
     ∧ ∃ p t, ChangePassword (PStr "pw") (PStr "T") = ChangePassword p t).
Proof.
  exact (authenticated_headers_only_authorization (λ _, "{}")
           (ChangePassword (PStr "pw") (PStr "T")) _ "password"
           eq_refl eq_refl (ex_intro _ (PStr "pw") eq_refl)).
Defined.
